(** * comazon: order placement with inventory reservation

    A shallow embedding of [src/app.js] (an Express application over a
    Prisma client) and the properties of its order endpoints.

    Modelling conventions.
    - The relational store behind [prisma] is a record of tables.  Tables
      addressed by [findUnique({ where: { id } })] are finite maps keyed by
      the identifier; the order items, never addressed by key, are a list
      of rows in insertion order.
    - Identifiers are strings.  [Int] columns ([stock], [quantity]) are
      integers.  Prices and totals are JS numbers, that is binary64
      floating-point numbers, with the additions and multiplications of
      the handlers done in that arithmetic; an [Int] column enters it
      through [number].
    - An [async] handler is a computation over the store that either
      returns or throws; [asyncHandler] turns what is thrown into the
      response. *)

From stdpp Require Import gmap strings list fin_maps.
From Stdlib Require Import ZArith PrimFloat.
From Stdlib Require SpecFloat FloatOps.

Local Open Scope string_scope.
Local Open Scope list_scope.
Local Open Scope Z_scope.

(** ** Rows, objects and the store *)

Module Prisma.

(** The JS number of an integer: the nearest binary64 number, the integer
    itself when it has one (every [Int] column does). *)
Definition number (z : Z) : float :=
  FloatOps.SF2Prim
    (SpecFloat.binary_normalize FloatOps.prec FloatOps.emax z 0 false).

(** Scalar columns of a product other than its identifier. *)
Record ProductData := { price : float; stock : Z }.

(** A product object as the client returns it. *)
Record Product := { id : string; fields :> ProductData }.

(** A line item as it appears in the request body and is handed to the
    nested [create]. *)
Record OrderItemData := { productId : string; unitPrice : float; quantity : Z }.

(** A stored order item: the line item and the order that owns it. *)
Record OrderItem := { orderId : string; columns :> OrderItemData }.

(** Scalar columns of an order other than its identifier. *)
Record OrderData := { userId : string }.

(** An order object with [include: { orderItems: true }]; [total] is the
    property the fetch handler assigns ([None]: not set). *)
Record Order := {
  order_id : string;
  order_fields : OrderData;
  orderItems : list OrderItem;
  total : option float
}.

Record UserData := { email : string; receiveEmail : bool }.

Record User := { user_id : string; user_fields : UserData }.

Record DB := {
  user : gmap string UserData;
  product : gmap string ProductData;
  order : gmap string OrderData;
  orderItem : list OrderItem
}.

Definition set_product (f : gmap string ProductData → gmap string ProductData)
    (db : DB) : DB :=
  {| user := user db; product := f (product db);
     order := order db; orderItem := orderItem db |}.

Definition set_order (f : gmap string OrderData → gmap string OrderData)
    (db : DB) : DB :=
  {| user := user db; product := product db;
     order := f (order db); orderItem := orderItem db |}.

Definition set_orderItem (f : list OrderItem → list OrderItem) (db : DB) : DB :=
  {| user := user db; product := product db;
     order := order db; orderItem := f (orderItem db) |}.

(** ** What a handler can throw *)

Inductive Exn :=
| StructError (message : string)
| PrismaClientValidationError (message : string)
| PrismaClientKnownRequestError (code message : string)
| Error (message : string).

Definition P2025 : Exn :=
  PrismaClientKnownRequestError "P2025" "Record not found".

Definition P2002 : Exn :=
  PrismaClientKnownRequestError "P2002" "Unique constraint failed".

(** ** Computations over the store *)

Definition Result (A : Type) : Type := Exn + A.

Definition M (A : Type) : Type := DB → Result A * DB.

Definition ret {A} (a : A) : M A := λ db, (inr a, db).

Definition throw {A} (e : Exn) : M A := λ db, (inl e, db).

Definition bind {A B} (c : M A) (k : A → M B) : M B :=
  λ db, match c db with
        | (inr a, db') => k a db'
        | (inl e, db') => (inl e, db')
        end.

Definition lift {A} (r : Result A) : M A := λ db, (r, db).

Notation "x <- c ;; k" := (bind c (λ x, k))
  (at level 100, c at next level, right associativity).

(** ** Client operations *)

(** [prisma.product.findMany({ where: { id: { in: ids } } })]. *)
Definition product_findMany_in (ids : list string) : M (list Product) :=
  λ db, (inr ((λ kv, {| id := kv.1; fields := kv.2 |}) <$>
               filter (λ kv, kv.1 ∈ ids) (map_to_list (product db))), db).

(** [prisma.product.findUnique({ where: { id } })]: [null] when absent. *)
Definition product_findUnique (i : string) : M (option Product) :=
  λ db, (inr ((λ d, {| id := i; fields := d |}) <$> product db !! i), db).

(** [prisma.user.findUniqueOrThrow({ where: { id }, ... })]. *)
Definition user_findUniqueOrThrow (i : string) : M User :=
  λ db, match user db !! i with
        | Some d => (inr {| user_id := i; user_fields := d |}, db)
        | None => (inl P2025, db)
        end.

(** [prisma.order.findUniqueOrThrow({ where: { id },
    include: { orderItems: true } })]. *)
Definition order_findUniqueOrThrow (i : string) : M Order :=
  λ db, match order db !! i with
        | Some d =>
            (inr {| order_id := i; order_fields := d;
                    orderItems :=
                      filter (λ it, orderId it = i) (orderItem db);
                    total := None |}, db)
        | None => (inl P2025, db)
        end.

(** The data of a partial product update ([PATCH]): the columns present. *)
Record ProductPatch := { patch_price : option float; patch_stock : option Z }.

Definition apply_patch (b : ProductPatch) (d : ProductData) : ProductData :=
  {| price := default (price d) (patch_price b);
     stock := default (stock d) (patch_stock b) |}.

(** [prisma.product.update({ where: { id }, data })]. *)
Definition product_update (i : string) (data : ProductPatch) : M Product :=
  λ db, match product db !! i with
        | Some d =>
            let d' := apply_patch data d in
            (inr {| id := i; fields := d' |}, set_product (<[i := d']>) db)
        | None => (inl P2025, db)
        end.

(** Queries that are built first and run later, inside [$transaction]. *)
Inductive Query :=
| order_create (data : OrderData) (create : list OrderItemData)
| product_update_decrement (where_id : string) (decrement : Z).

Inductive QueryResult :=
| created (o : Order)
| updated (p : Product).

(** What the storage layer contributes to one request: the identifier it
    generates for a new order, and the faults it raises of its own
    (connection loss, deadline, a constraint of the schema), given by the
    position of the statement in the transaction. *)
Record Env := { uuid : string; fault : nat → option Exn }.

Definition run (env : Env) (q : Query) : M QueryResult :=
  λ db,
  match q with
  | order_create data create =>
      match order db !! uuid env with
      | Some _ => (inl P2002, db)
      | None =>
          let rows := (λ c, {| orderId := uuid env; columns := c |}) <$> create in
          (inr (created {| order_id := uuid env; order_fields := data;
                           orderItems := rows; total := None |}),
           set_orderItem (λ l, l ++ rows)
             (set_order (<[uuid env := data]>) db))
      end
  | product_update_decrement i n =>
      match product db !! i with
      | Some d =>
          let d' := {| price := price d; stock := stock d - n |} in
          (inr (updated {| id := i; fields := d' |}),
           set_product (<[i := d']>) db)
      | None => (inl P2025, db)
      end
  end.

(** The statements of a transaction run in order, the [k]-th one unless
    the storage layer faults there. *)
Fixpoint run_from (env : Env) (k : nat) (qs : list Query)
    : M (list QueryResult) :=
  match qs with
  | [] => ret []
  | q :: qs' =>
      match fault env k with
      | Some e => throw e
      | None =>
          r <- run env q ;;
          rs <- run_from env (S k) qs' ;;
          ret (r :: rs)
      end
  end.

(** [prisma.$transaction([...])]: all the statements or none. *)
Definition transaction (env : Env) (qs : list Query) : M (list QueryResult) :=
  λ db, match run_from env 0 qs db with
        | (inr rs, db') => (inr rs, db')
        | (inl e, _) => (inl e, db)
        end.

(** [prisma.product.create({ data })]: the row is stored under the
    identifier the storage layer generates for it. *)
Definition product_create (env : Env) (data : ProductData) : M Product :=
  λ db, match product db !! uuid env with
        | Some _ => (inl P2002, db)
        | None =>
            (inr {| id := uuid env; fields := data |},
             set_product (<[uuid env := data]>) db)
        end.

End Prisma.

(** ** The application *)

Module App.
Import Prisma.

(** What a response carries: the status text of [res.sendStatus], the
    [{ message }] object of the error branch, or the JSON of the value sent
    ([product_json None] is [null]; [no_body] is [undefined]). *)
Inductive Body :=
| status_text
| message_json (message : string)
| user_json (u : User)
| product_json (p : option Product)
| order_json (o : Order)
| no_body.

Record Response := { status : Z; body : Body }.

(** [res.send(x)]: status 200 unless [res.status] was called. *)
Definition send (b : Body) : Response := {| status := 200; body := b |}.

(** The [catch] branch of [asyncHandler]. *)
Definition on_error (e : Exn) : Response :=
  match e with
  | StructError message | PrismaClientValidationError message =>
      {| status := 400; body := message_json message |}
  | PrismaClientKnownRequestError code message =>
      if bool_decide (code = "P2025")
      then {| status := 404; body := status_text |}
      else {| status := 500; body := message_json message |}
  | Error message => {| status := 500; body := message_json message |}
  end.

(** [asyncHandler(handler)]: the response of the handler, or the one made
    from what it throws; the store is the one the handler leaves. *)
Definition asyncHandler {Req} (handler : Req → M Response)
    (req : Req) (db : DB) : Response * DB :=
  match handler req db with
  | (inr res, db') => (res, db')
  | (inl e, db') => (on_error e, db')
  end.

(** [assert(req.body, Struct)]: a struct answers with the message of its
    failure, or with [None] when the value conforms. *)
Definition assert {B} (b : B) (Struct : B → option string) : M unit :=
  match Struct b with
  | Some message => throw (StructError message)
  | None => ret tt
  end.

(** The body of [POST /orders]: [{ orderItems, ...orderFields }]. *)
Record OrderBody := {
  body_orderItems : list OrderItemData;
  body_orderFields : OrderData
}.

(** [Array.prototype.every] and [Array.prototype.map] with a callback
    that may throw. *)
Fixpoint every {A} (f : A → Result bool) (l : list A) : Result bool :=
  match l with
  | [] => inr true
  | x :: l' =>
      match f x with
      | inl e => inl e
      | inr false => inr false
      | inr true => every f l'
      end
  end.

Fixpoint map_throwing {A B} (f : A → Result B) (l : list A) : Result (list B) :=
  match l with
  | [] => inr []
  | x :: l' =>
      match f x with
      | inl e => inl e
      | inr y =>
          match map_throwing f l' with
          | inl e => inl e
          | inr ys => inr (y :: ys)
          end
      end
  end.

(** [getQuantity]: the quantity of the first line item that names the
    product; reading [.quantity] of [undefined] throws. *)
Definition getQuantity (orderItems : list OrderItemData) (pid : string)
    : Result Z :=
  match List.find (λ orderItem, bool_decide (productId orderItem = pid))
          orderItems with
  | Some orderItem => inr (quantity orderItem)
  | None => inl (Error "Cannot read properties of undefined")
  end.

Definition isSufficientStock (orderItems : list OrderItemData)
    (products : list Product) : Result bool :=
  every (λ product,
           match getQuantity orderItems (id product) with
           | inr q => inr (stock product >=? q)
           | inl e => inl e
           end) products.

Definition queryPromises (orderItems : list OrderItemData)
    (productIds : list string) : Result (list Query) :=
  map_throwing (λ pid,
                  match getQuantity orderItems pid with
                  | inr q => inr (product_update_decrement pid q)
                  | inl e => inl e
                  end) productIds.

(** What [res.status(201).send(order)] sends for [const [order] = ...]. *)
Definition first_result (rs : list QueryResult) : Body :=
  match rs with
  | created o :: _ => order_json o
  | updated p :: _ => product_json (Some p)
  | [] => no_body
  end.

Section Handlers.

(** The structs of [structs.js], which is not among the sources. *)
Variable CreateOrder : OrderBody → option string.
Variable PatchProduct : ProductPatch → option string.

(** [GET /users/:id] *)
Definition get_users_id (i : string) : M Response :=
  u <- user_findUniqueOrThrow i ;;
  ret (send (user_json u)).

(** [GET /products/:id] *)
Definition get_products_id (i : string) : M Response :=
  p <- product_findUnique i ;;
  ret (send (product_json p)).

(** [PATCH /products/:id] *)
Definition patch_products_id (req : string * ProductPatch) : M Response :=
  _ <- assert req.2 PatchProduct ;;
  p <- product_update req.1 req.2 ;;
  ret (send (product_json (Some p))).

(** The [reduce] of [GET /orders/:id]. *)
Definition order_total (items : list OrderItem) : float :=
  fold_left (λ acc (orderItem : OrderItem),
               (acc + unitPrice orderItem * number (quantity orderItem))%float)
            items 0%float.

(** [GET /orders/:id] *)
Definition get_orders_id (i : string) : M Response :=
  o <- order_findUniqueOrThrow i ;;
  let total := order_total (orderItems o) in
  let o := {| order_id := order_id o; order_fields := order_fields o;
              orderItems := orderItems o; total := Some total |} in
  ret (send (order_json o)).

(** [POST /orders], up to its first [await]: the body is checked and the
    referenced products are read. *)
Definition post_orders_lookup (req : OrderBody) : M (list Product) :=
  _ <- assert req CreateOrder ;;
  let productIds := map productId (body_orderItems req) in
  product_findMany_in productIds.

(** [POST /orders], from the products read to the response. *)
Definition post_orders_commit (env : Env) (req : OrderBody)
    (products : list Product) : M Response :=
  let orderItems := body_orderItems req in
  let orderFields := body_orderFields req in
  let productIds := map productId orderItems in
  sufficient <- lift (isSufficientStock orderItems products) ;;
  if negb sufficient then throw (Error "Insufficient Stock")
  else
    updates <- lift (queryPromises orderItems productIds) ;;
    rs <- transaction env (order_create orderFields orderItems :: updates) ;;
    ret {| status := 201; body := first_result rs |}.

(** [POST /orders] *)
Definition post_orders (env : Env) (req : OrderBody) : M Response :=
  products <- post_orders_lookup req ;;
  post_orders_commit env req products.

(** The routes: [app.get('/users/:id', asyncHandler(...))] and the like. *)
Definition GET_users_id := asyncHandler get_users_id.
Definition GET_products_id := asyncHandler get_products_id.
Definition PATCH_products_id := asyncHandler patch_products_id.
Definition GET_orders_id := asyncHandler get_orders_id.
Definition POST_orders (env : Env) := asyncHandler (post_orders env).

(** *** Requests in flight

    A placement suspends twice, at [await prisma.product.findMany] and at
    [await prisma.$transaction]; between the two the store may serve
    another request. *)
Inductive Task :=
| received (env : Env) (req : OrderBody)
| resolved (env : Env) (req : OrderBody) (products : list Product)
| responded (res : Response).

Definition settle {A} (k : A → Task) (r : Result A * DB) : Task * DB :=
  match r with
  | (inr a, db') => (k a, db')
  | (inl e, db') => (responded (on_error e), db')
  end.

Definition step (t : Task) (db : DB) : Task * DB :=
  match t with
  | received env req => settle (resolved env req) (post_orders_lookup req db)
  | resolved env req products =>
      settle responded (post_orders_commit env req products db)
  | responded _ => (t, db)
  end.

(** A schedule names, turn by turn, the request that proceeds. *)
Fixpoint schedule (turns : list nat) (tasks : list Task) (db : DB)
    : list Task * DB :=
  match turns with
  | [] => (tasks, db)
  | i :: turns' =>
      match tasks !! i with
      | Some t =>
          let '(t', db') := step t db in
          schedule turns' (<[i := t']> tasks) db'
      | None => schedule turns' tasks db
      end
  end.

End Handlers.

(** Modelled from the spec: the [CreateOrder] struct of [structs.js],
    after section 4.1: owner reference present, a non-empty collection of
    line items, each quantity a positive integer, each product
    identifier well-formed (here: not empty). *)
Definition CreateOrder_spec (b : OrderBody) : option string :=
  if bool_decide (userId (body_orderFields b) ≠ "")
     && bool_decide (body_orderItems b ≠ [])
     && forallb (λ it, bool_decide (0 < quantity it)
                       && bool_decide (productId it ≠ ""))
          (body_orderItems b)
  then None
  else Some "Expected a valid order".

Section Catalogue.

(** The [CreateProduct] struct of [structs.js]. *)
Variable CreateProduct : ProductData → option string.

(** [POST /products] *)
Definition post_products (env : Env) (req : ProductData) : M Response :=
  _ <- assert req CreateProduct ;;
  p <- product_create env req ;;
  ret {| status := 201; body := product_json (Some p) |}.

Definition POST_products (env : Env) := asyncHandler (post_products env).

End Catalogue.

End App.

(** * Properties *)

Import Prisma App.

(** ** Vocabulary of the statements *)

(** The quantity [getQuantity] answers for a product named in the request
    ([0] stands for the throw, which the handler never meets). *)
Definition firstQuantity (items : list OrderItemData) (pid : string) : Z :=
  match getQuantity items pid with
  | inr q => q
  | inl _ => 0
  end.

(** How many line items name the product. *)
Definition occurrences (pid : string) (ids : list string) : nat :=
  length (filter (λ i, i = pid) ids).

(** One unconditional decrement of a stock counter. *)
Definition decrement_stock (i : string) (n : Z) (m : gmap string ProductData)
    : gmap string ProductData :=
  match m !! i with
  | Some d => <[i := {| price := price d; stock := stock d - n |}]> m
  | None => m
  end.

(** The decrements of a list of identifiers, one after the other, each by
    the amount [f] gives for the identifier. *)
Definition decrement_all (f : string → Z) (ids : list string)
    (m : gmap string ProductData) : gmap string ProductData :=
  foldl (λ m i, decrement_stock i (f i) m) m ids.

Definition decrement_by (f : string → Z) (i : string) : Query :=
  product_update_decrement i (f i).

(** The admission check passes: every product found has at least the
    stock that [getQuantity] asks for it. *)
Definition admission_ok (items : list OrderItemData) (db : DB) : Prop :=
  ∀ i d, i ∈ map productId items → product db !! i = Some d →
         firstQuantity items i ≤ stock d.

(** The rows a placement inserts. *)
Definition new_rows (env : Env) (req : OrderBody) : list OrderItem :=
  (λ c, {| orderId := uuid env; columns := c |}) <$> body_orderItems req.

(** The order object a placement answers with. *)
Definition new_order (env : Env) (req : OrderBody) : Order :=
  {| order_id := uuid env; order_fields := body_orderFields req;
     orderItems := new_rows env req; total := None |}.

(** The store after a placement has committed: the order row, its item
    rows, and one decrement per line item. *)
Definition committed (env : Env) (req : OrderBody) (db : DB) : DB :=
  let items := body_orderItems req in
  set_product (decrement_all (firstQuantity items) (map productId items))
    (set_orderItem (λ l, l ++ new_rows env req)
       (set_order (<[uuid env := body_orderFields req]>) db)).

(** The sum of section 4.3, written after the words of the spec: the sum
    over the items of unit price times quantity, as a sum of n terms is
    defined: nothing for no item, and for items up to a last one the sum
    over those before it plus the amount of the last.  The arithmetic is
    that of JS numbers, so the order of the terms is part of the sum. *)
Definition line_amount (it : OrderItem) : float :=
  (unitPrice it * number (quantity it))%float.

Definition sum_of_lines (items : list OrderItem) : float :=
  fold_right (λ it s, (s + line_amount it)%float) 0%float (rev items).

(** The products the lookup of a placement reads. *)
Definition found (ids : list string) (db : DB) : list Product :=
  (λ kv, {| id := kv.1; fields := kv.2 |}) <$>
    filter (λ kv, kv.1 ∈ ids) (map_to_list (product db)).

(** The admission check on the products read, as a boolean. *)
Definition sufficient (items : list OrderItemData) (db : DB) : bool :=
  forallb (λ p : Product, stock p >=? firstQuantity items (id p))
    (found (map productId items) db).

(** The statements [POST /orders] hands to [$transaction]. *)
Definition statements (req : OrderBody) : list Query :=
  order_create (body_orderFields req) (body_orderItems req)
  :: map (decrement_by (firstQuantity (body_orderItems req)))
       (map productId (body_orderItems req)).

(** [it] is the first line item of [items] that names its product. *)
Definition first_line (items : list OrderItemData) (it : OrderItemData) : Prop :=
  ∃ l1 l2, items = l1 ++ it :: l2 ∧ ∀ x, x ∈ l1 → productId x ≠ productId it.

(** The item rows of an order. *)
Definition items_of (oid : string) (db : DB) : list OrderItem :=
  filter (λ it, orderId it = oid) (orderItem db).

(** The response of a request that has one, and the statuses of a list
    of requests. *)
Definition response_of (t : Task) : option Response :=
  match t with
  | responded res => Some res
  | _ => None
  end.

Definition statuses (tasks : list Task) : list (option Z) :=
  (λ t, status <$> response_of t) <$> tasks.

(** Every order item row belongs to a stored order and names a stored
    product. *)
Definition integrity (db : DB) : Prop :=
  ∀ it, it ∈ orderItem db →
        is_Some (order db !! orderId it) ∧ is_Some (product db !! productId it).


(** The products named by the request all have a row. *)
Definition all_present (req : OrderBody) (db : DB) : Prop :=
  Forall (λ i, is_Some (product db !! i)) (map productId (body_orderItems req)).

(** ** Fixtures *)

Module Fixture.

Definition line (pid : string) (unit_price : float) (q : Z) : OrderItemData :=
  {| productId := pid; unitPrice := unit_price; quantity := q |}.

Definition request (items : list OrderItemData) : OrderBody :=
  {| body_orderItems := items; body_orderFields := {| userId := "u1" |} |}.

(** A storage layer that raises nothing of its own. *)
Definition quiet (new_id : string) : Env :=
  {| uuid := new_id; fault := λ _, None |}.

(** A storage layer that fails at the statement [k] of the transaction. *)
Definition failing (new_id : string) (k : nat) : Env :=
  {| uuid := new_id;
     fault := λ j, if decide (j = k) then Some (Error "storage fault") else None |}.

(** One user, two products (p1: price 10, stock 5; p2: price 5, stock 1),
    no order yet. *)
Definition shop : DB :=
  {| user := {[ "u1" := {| email := "u1@example.com"; receiveEmail := true |} ]};
     product := <["p1" := {| price := 10; stock := 5 |}]>
                  {[ "p2" := {| price := 5; stock := 1 |} ]};
     order := ∅;
     orderItem := [] |}.

(** The shop with one order of two lines: 2 units at 10 and 1 unit at 5. *)
Definition shop_with_order : DB :=
  {| user := user shop;
     product := product shop;
     order := {[ "o1" := {| userId := "u1" |} ]};
     orderItem := [ {| orderId := "o1"; columns := line "p1" 10 2 |};
                    {| orderId := "o1"; columns := line "p2" 5 1 |} ] |}.

Definition accept_all {B} (b : B) : option string := None.

End Fixture.

(** ** The helper and the two array methods *)

Lemma getQuantity_first items pid l1 it l2 :
  items = l1 ++ it :: l2 →
  productId it = pid →
  (∀ x, x ∈ l1 → productId x ≠ pid) →
  getQuantity items pid = inr (quantity it).
Proof.
  intros -> Hit Hl1. unfold getQuantity.
  induction l1 as [|x l1 IH]; simpl.
  - rewrite bool_decide_eq_true_2 by done. done.
  - rewrite bool_decide_eq_false_2 by (apply Hl1; left).
    apply IH. intros y Hy. apply Hl1. by right.
Qed.

Lemma getQuantity_named items pid :
  pid ∈ map productId items →
  getQuantity items pid = inr (firstQuantity items pid).
Proof.
  unfold firstQuantity, getQuantity. induction items as [|x items IH]; simpl.
  - intros H. by apply elem_of_nil in H.
  - intros H. destruct (bool_decide_reflect (productId x = pid)) as [|Hne]; [done|].
    apply elem_of_cons in H as [H|H]; [congruence|]. by apply IH.
Qed.

Lemma firstQuantity_first items pid l1 it l2 :
  items = l1 ++ it :: l2 →
  productId it = pid →
  (∀ x, x ∈ l1 → productId x ≠ pid) →
  firstQuantity items pid = quantity it.
Proof.
  intros H1 H2 H3. unfold firstQuantity.
  by rewrite (getQuantity_first _ _ _ _ _ H1 H2 H3).
Qed.

Lemma every_total {A} (f : A → Result bool) (g : A → bool) (l : list A) :
  (∀ x, x ∈ l → f x = inr (g x)) →
  every f l = inr (forallb g l).
Proof.
  induction l as [|x l IH]; intros Hf; simpl; [done|].
  rewrite (Hf x) by left. destruct (g x); simpl; [|done].
  apply IH. intros y Hy. apply Hf. by right.
Qed.

Lemma map_throwing_total {A B} (f : A → Result B) (g : A → B) (l : list A) :
  (∀ x, x ∈ l → f x = inr (g x)) →
  map_throwing f l = inr (map g l).
Proof.
  induction l as [|x l IH]; intros Hf; simpl; [done|].
  rewrite (Hf x) by left. rewrite IH; [done|].
  intros y Hy. apply Hf. by right.
Qed.

(** ** The products read by the lookup *)

Lemma findMany_found ids db :
  product_findMany_in ids db = (inr (found ids db), db).
Proof. reflexivity. Qed.

Lemma elem_of_found ids db (p : Product) :
  p ∈ found ids db ↔ id p ∈ ids ∧ product db !! id p = Some (fields p).
Proof.
  unfold found. rewrite list_elem_of_fmap. split.
  - intros [[i d] [-> H]]. apply list_elem_of_filter in H as [Hin H].
    apply elem_of_map_to_list in H. simpl in *. done.
  - intros [Hin H]. exists (id p, fields p). split; [by destruct p|].
    apply list_elem_of_filter. split; [done|]. by apply elem_of_map_to_list.
Qed.

Lemma isSufficientStock_found items db :
  isSufficientStock items (found (map productId items) db)
  = inr (sufficient items db).
Proof.
  unfold isSufficientStock, sufficient. apply every_total.
  intros p Hp. apply elem_of_found in Hp as [Hin _].
  by rewrite (getQuantity_named _ _ Hin).
Qed.

Lemma sufficient_admission_ok items db :
  sufficient items db = true ↔ admission_ok items db.
Proof.
  unfold sufficient, admission_ok. rewrite forallb_forall. split.
  - intros H i d Hin Hd.
    specialize (H {| id := i; fields := d |}).
    rewrite <- list_elem_of_In, elem_of_found in H. simpl in H.
    specialize (H (conj Hin Hd)). by apply Z.geb_le in H.
  - intros H p Hp. apply list_elem_of_In, elem_of_found in Hp as [Hin Hd].
    apply Z.geb_le. by apply H.
Qed.

Lemma not_sufficient items db i d :
  i ∈ map productId items →
  product db !! i = Some d →
  stock d < firstQuantity items i →
  sufficient items db = false.
Proof.
  intros Hin Hd Hlt. apply not_true_is_false. intros H.
  apply sufficient_admission_ok in H. specialize (H _ _ Hin Hd). lia.
Qed.

Lemma queryPromises_named items :
  queryPromises items (map productId items)
  = inr (map (decrement_by (firstQuantity items)) (map productId items)).
Proof.
  unfold queryPromises. apply map_throwing_total.
  intros i Hi. by rewrite (getQuantity_named _ _ Hi).
Qed.

(** ** The stock counters under a run of decrements *)

Lemma lookup_decrement_stock i n m j :
  decrement_stock i n m !! j
  = if decide (i = j)
    then (λ d, {| price := price d; stock := stock d - n |}) <$> m !! j
    else m !! j.
Proof.
  unfold decrement_stock. case_decide as Hij.
  - subst j. destruct (m !! i) as [d|] eqn:Hd.
    + by rewrite lookup_insert_eq.
    + by rewrite Hd.
  - destruct (m !! i); [by rewrite lookup_insert_ne|done].
Qed.

Lemma decrement_stock_is_Some i n m j :
  is_Some (decrement_stock i n m !! j) ↔ is_Some (m !! j).
Proof.
  rewrite lookup_decrement_stock. case_decide; [|done].
  by rewrite fmap_is_Some.
Qed.

Lemma decrement_stock_None i n m j :
  m !! j = None → decrement_stock i n m !! j = None.
Proof.
  intros H. rewrite lookup_decrement_stock, H. by case_decide.
Qed.

Lemma occurrences_cons_eq p ids :
  occurrences p (p :: ids) = S (occurrences p ids).
Proof. unfold occurrences. by rewrite filter_cons_True. Qed.

Lemma occurrences_cons_ne p i ids :
  i ≠ p → occurrences p (i :: ids) = occurrences p ids.
Proof. intros H. unfold occurrences. by rewrite filter_cons_False. Qed.

Lemma lookup_decrement_all f ids : ∀ m p,
  decrement_all f ids m !! p
  = (λ d, {| price := price d;
             stock := stock d - f p * Z.of_nat (occurrences p ids) |})
      <$> m !! p.
Proof.
  induction ids as [|i ids IH]; intros m p.
  - simpl. destruct (m !! p) as [[pr st]|]; simpl; [|done].
    do 2 f_equal. unfold occurrences. simpl. lia.
  - change (decrement_all f (i :: ids) m)
      with (decrement_all f ids (decrement_stock i (f i) m)).
    rewrite IH, lookup_decrement_stock. case_decide as Hip.
    + subst i. rewrite occurrences_cons_eq.
      destruct (m !! p) as [[pr st]|]; simpl; [|done].
      do 2 f_equal. lia.
    + by rewrite occurrences_cons_ne.
Qed.

(** ** The statements of the transaction *)

Lemma set_product_set_product f g db :
  set_product g (set_product f db) = set_product (g ∘ f) db.
Proof. reflexivity. Qed.

Lemma run_decrement env i n db :
  run env (product_update_decrement i n) db
  = match product db !! i with
    | Some d =>
        (inr (updated {| id := i;
                         fields := {| price := price d; stock := stock d - n |} |}),
         set_product (decrement_stock i n) db)
    | None => (inl P2025, db)
    end.
Proof.
  simpl. unfold decrement_stock, set_product.
  by destruct (product db !! i) as [d|] eqn:Hd.
Qed.

Lemma run_from_decrements_inv env f ids : ∀ k db rs db',
  run_from env k (map (decrement_by f) ids) db = (inr rs, db') →
  db' = set_product (decrement_all f ids) db
  ∧ Forall (λ i, is_Some (product db !! i)) ids.
Proof.
  induction ids as [|i ids IH]; intros k db rs db' H.
  - inversion H; subst. split; [by destruct db'|constructor].
  - cbn [map run_from] in H. destruct (fault env k); [done|].
    unfold bind at 1 in H. unfold decrement_by at 1 in H.
    rewrite run_decrement in H.
    destruct (product db !! i) as [d|] eqn:Hd; [|done].
    unfold bind, ret in H.
    destruct (run_from env (S k) (map (decrement_by f) ids)
                (set_product (decrement_stock i (f i)) db))
      as [[e|rs'] db''] eqn:Hrest; [done|].
    inversion H; subst. apply IH in Hrest as [-> Hall]. split; [done|].
    constructor; [by rewrite Hd|].
    eapply Forall_impl; [exact Hall|]. intros j Hj. simpl in Hj.
    by apply decrement_stock_is_Some in Hj.
Qed.

Lemma run_from_decrements_ok env f ids :
  (∀ j, fault env j = None) →
  ∀ k db, Forall (λ i, is_Some (product db !! i)) ids →
  ∃ rs, run_from env k (map (decrement_by f) ids) db
        = (inr rs, set_product (decrement_all f ids) db).
Proof.
  intros Hfault. induction ids as [|i ids IH]; intros k db Hall.
  - exists []. by destruct db.
  - apply Forall_cons in Hall as [[d Hd] Hall].
    destruct (IH (S k) (set_product (decrement_stock i (f i)) db)) as [rs Hrs].
    { eapply Forall_impl; [exact Hall|]. intros j Hj. simpl.
      by apply decrement_stock_is_Some. }
    eexists. cbn [map run_from]. rewrite Hfault.
    unfold bind at 1. unfold decrement_by at 1. rewrite run_decrement, Hd.
    unfold bind, ret. rewrite Hrs. reflexivity.
Qed.

Lemma run_from_decrements_missing env f ids :
  (∀ j, fault env j = None) →
  ∀ k db i, i ∈ ids → product db !! i = None →
  ∃ db'', run_from env k (map (decrement_by f) ids) db = (inl P2025, db'').
Proof.
  intros Hfault. induction ids as [|i0 ids IH]; intros k db i Hin Hnone.
  - by apply elem_of_nil in Hin.
  - cbn [map run_from]. rewrite Hfault.
    unfold bind at 1. unfold decrement_by at 1. rewrite run_decrement.
    destruct (product db !! i0) as [d|] eqn:Hd; [|by eexists].
    apply elem_of_cons in Hin as [->|Hin]; [congruence|].
    destruct (IH (S k) (set_product (decrement_stock i0 (f i0)) db) i Hin)
      as [db'' Hrest].
    { simpl. by apply decrement_stock_None. }
    exists db''. unfold bind. by rewrite Hrest.
Qed.

(** ** The placement handler, case by case *)

Lemma transaction_rollback env qs db e db' :
  transaction env qs db = (inl e, db') → db' = db.
Proof.
  unfold transaction. destruct (run_from env 0 qs db) as [[?|?] ?]; congruence.
Qed.

Lemma transaction_statements_inv env req db rs db' :
  transaction env (statements req) db = (inr rs, db') →
  db' = committed env req db
  ∧ first_result rs = order_json (new_order env req).
Proof.
  unfold transaction, statements. cbn [run_from].
  destruct (fault env 0%nat); [done|].
  unfold bind at 1. cbn [run].
  destruct (order db !! uuid env); [done|].
  unfold bind, ret.
  match goal with
  | |- context [run_from env 1 ?qs ?d] =>
      destruct (run_from env 1 qs d) as [[e|rs'] db''] eqn:Hrest
  end; [done|].
  intros H. inversion H; subst.
  apply run_from_decrements_inv in Hrest as [-> _]. done.
Qed.

(** Past the order insert of a placement, under a storage layer that
    raises nothing and with a fresh identifier: what is left of the goal is
    the run of the decrements from statement 1. *)
Ltac past_order_insert Hfault Hfresh :=
  unfold transaction, statements; cbn [run_from]; rewrite Hfault;
  unfold bind at 1; cbn [run]; rewrite Hfresh; unfold bind, ret.

Lemma transaction_statements_ok env req db :
  (∀ j, fault env j = None) →
  order db !! uuid env = None →
  Forall (λ i, is_Some (product db !! i)) (map productId (body_orderItems req)) →
  ∃ rs, transaction env (statements req) db = (inr rs, committed env req db)
        ∧ first_result rs = order_json (new_order env req).
Proof.
  intros Hfault Hfresh Hall.
  past_order_insert Hfault Hfresh.
  match goal with
  | |- context [run_from env 1 ?qs ?d] =>
      destruct (run_from_decrements_ok env (firstQuantity (body_orderItems req))
                  (map productId (body_orderItems req)) Hfault 1%nat d Hall)
        as [rs' ->]
  end.
  eexists. split; reflexivity.
Qed.

Lemma transaction_statements_missing env req db i :
  (∀ j, fault env j = None) →
  order db !! uuid env = None →
  i ∈ map productId (body_orderItems req) →
  product db !! i = None →
  transaction env (statements req) db = (inl P2025, db).
Proof.
  intros Hfault Hfresh Hin Hnone.
  past_order_insert Hfault Hfresh.
  match goal with
  | |- context [run_from env 1 ?qs ?d] =>
      destruct (run_from_decrements_missing env
                  (firstQuantity (body_orderItems req))
                  (map productId (body_orderItems req)) Hfault 1%nat d i Hin Hnone)
        as [db'' ->]
  end.
  reflexivity.
Qed.

Lemma run_from_no_fault env qs : ∀ k db rs db',
  run_from env k qs db = (inr rs, db') →
  ∀ j, (j < length qs)%nat → fault env (k + j) = None.
Proof.
  induction qs as [|q qs IH]; intros k db rs db' H j Hj; simpl in Hj; [lia|].
  cbn [run_from] in H. destruct (fault env k) eqn:Hk; [done|].
  unfold bind at 1 in H. destruct (run env q db) as [[e|r] db1]; [done|].
  unfold bind, ret in H.
  destruct (run_from env (S k) qs db1) as [[e|rs'] db2] eqn:Hrest; [done|].
  destruct j as [|j].
  - by rewrite Nat.add_0_r.
  - replace (k + S j)%nat with (S k + j)%nat by lia.
    eapply IH; [exact Hrest|lia].
Qed.

Lemma transaction_no_fault env req db rs db' :
  transaction env (statements req) db = (inr rs, db') →
  ∀ k, (k ≤ length (body_orderItems req))%nat → fault env k = None.
Proof.
  unfold transaction.
  destruct (run_from env 0 (statements req) db) as [[e|rs'] db''] eqn:H; [done|].
  intros _ k Hk. apply (run_from_no_fault _ _ _ _ _ _ H k).
  unfold statements. simpl. rewrite !length_map. lia.
Qed.

Lemma run_from_order_insert env req db rs db' :
  run_from env 0 (statements req) db = (inr rs, db') →
  order db !! uuid env = None ∧ all_present req db.
Proof.
  unfold statements. cbn [run_from].
  destruct (fault env 0%nat); [done|].
  unfold bind at 1. cbn [run].
  destruct (order db !! uuid env); [done|].
  unfold bind, ret.
  match goal with
  | |- context [run_from env 1 ?qs ?d] =>
      destruct (run_from env 1 qs d) as [[e|rs'] db''] eqn:Hrest
  end; [done|].
  intros _. split; [done|].
  by apply run_from_decrements_inv in Hrest as [_ Hall].
Qed.



Section Placement.

Variable CreateOrder : OrderBody → option string.

Lemma post_orders_invalid env req db message :
  CreateOrder req = Some message →
  post_orders CreateOrder env req db = (inl (StructError message), db).
Proof.
  intros H. unfold post_orders, post_orders_lookup, assert, bind.
  by rewrite H.
Qed.

Lemma post_orders_valid env req db :
  CreateOrder req = None →
  post_orders CreateOrder env req db
  = if sufficient (body_orderItems req) db
    then match transaction env (statements req) db with
         | (inr rs, db') => (inr {| status := 201; body := first_result rs |}, db')
         | (inl e, db') => (inl e, db')
         end
    else (inl (Error "Insufficient Stock"), db).
Proof.
  intros H. unfold post_orders, post_orders_lookup, assert. rewrite H.
  unfold bind at 1. unfold bind at 1. cbn [ret].
  rewrite findMany_found. unfold post_orders_commit, lift.
  unfold bind at 1. rewrite isSufficientStock_found.
  destruct (sufficient (body_orderItems req) db); cbn [negb]; [|done].
  unfold bind at 1. rewrite queryPromises_named. reflexivity.
Qed.

(** Whatever the request and the storage layer do, the store after the
    response is the store before it or the committed one, and the latter
    exactly when the response is 201. *)
Lemma POST_orders_all_or_nothing env req db :
  let '(res, db') := POST_orders CreateOrder env req db in
  (status res = 201 ∧ body res = order_json (new_order env req)
   ∧ db' = committed env req db
   ∧ ∀ k, (k ≤ length (body_orderItems req))%nat → fault env k = None)
  ∨ (status res ≠ 201 ∧ db' = db).
Proof.
  unfold POST_orders, asyncHandler.
  destruct (CreateOrder req) as [message|] eqn:Hvalid.
  - rewrite (post_orders_invalid _ _ _ _ Hvalid). right. done.
  - rewrite (post_orders_valid _ _ _ Hvalid).
    destruct (sufficient (body_orderItems req) db); [|right; done].
    destruct (transaction env (statements req) db) as [[e|rs] db'] eqn:Htx.
    + apply transaction_rollback in Htx as ->. right. split; [|done].
      destruct e; simpl; try done. by case_bool_decide.
    + pose proof (transaction_no_fault _ _ _ _ _ Htx) as Hfault.
      apply transaction_statements_inv in Htx as [-> Hbody]. left. done.
Qed.

End Placement.

Section Outcomes.

Variable CreateOrder : OrderBody → option string.

Lemma POST_orders_insufficient env req db :
  CreateOrder req = None →
  sufficient (body_orderItems req) db = false →
  POST_orders CreateOrder env req db
  = ({| status := 500; body := message_json "Insufficient Stock" |}, db).
Proof.
  intros Hvalid Hs. unfold POST_orders, asyncHandler.
  by rewrite (post_orders_valid _ _ _ _ Hvalid), Hs.
Qed.

Lemma POST_orders_commits env req db :
  CreateOrder req = None →
  order db !! uuid env = None →
  (∀ j, fault env j = None) →
  Forall (λ i, is_Some (product db !! i)) (map productId (body_orderItems req)) →
  sufficient (body_orderItems req) db = true →
  POST_orders CreateOrder env req db
  = ({| status := 201; body := order_json (new_order env req) |},
     committed env req db).
Proof.
  intros Hvalid Hfresh Hfault Hall Hs. unfold POST_orders, asyncHandler.
  rewrite (post_orders_valid _ _ _ _ Hvalid), Hs.
  destruct (transaction_statements_ok env req db Hfault Hfresh Hall)
    as [rs [-> ->]].
  done.
Qed.

Lemma POST_orders_missing env req db i :
  CreateOrder req = None →
  order db !! uuid env = None →
  (∀ j, fault env j = None) →
  i ∈ map productId (body_orderItems req) →
  product db !! i = None →
  sufficient (body_orderItems req) db = true →
  POST_orders CreateOrder env req db
  = ({| status := 404; body := status_text |}, db).
Proof.
  intros Hvalid Hfresh Hfault Hin Hnone Hs. unfold POST_orders, asyncHandler.
  rewrite (post_orders_valid _ _ _ _ Hvalid), Hs.
  by rewrite (transaction_statements_missing env req db i Hfault Hfresh Hin Hnone).
Qed.

End Outcomes.

(** ** First lines *)

Lemma first_line_quantity items it :
  first_line items it → firstQuantity items (productId it) = quantity it.
Proof.
  intros (l1 & l2 & Heq & Hl1). by eapply firstQuantity_first.
Qed.

Lemma first_line_named items it :
  first_line items it → productId it ∈ map productId items.
Proof.
  intros (l1 & l2 & -> & _). rewrite map_app. simpl.
  apply elem_of_app. right. left.
Qed.

Lemma first_line_exists items i :
  i ∈ map productId items → ∃ it, first_line items it ∧ productId it = i.
Proof.
  induction items as [|x items IH]; simpl; intros Hin.
  - by apply elem_of_nil in Hin.
  - destruct (decide (productId x = i)) as [Hx|Hx].
    + exists x. split; [|done]. exists [], items. split; [done|].
      intros y Hy. by apply elem_of_nil in Hy.
    + apply elem_of_cons in Hin as [Hin|Hin]; [congruence|].
      destruct (IH Hin) as (it & (l1 & l2 & -> & Hl1) & Hit).
      exists it. split; [|done]. exists (x :: l1), l2. split; [done|].
      intros y Hy. apply elem_of_cons in Hy as [->|Hy]; [congruence|].
      by apply Hl1.
Qed.

Lemma admission_ok_first_lines items db :
  admission_ok items db ↔
  ∀ it d, first_line items it → product db !! productId it = Some d →
          quantity it ≤ stock d.
Proof.
  split.
  - intros H it d Hit Hd. rewrite <- (first_line_quantity _ _ Hit).
    apply H; [by apply first_line_named|done].
  - intros H i d Hin Hd. destruct (first_line_exists _ _ Hin) as (it & Hit & <-).
    rewrite (first_line_quantity _ _ Hit). by apply H.
Qed.

Lemma NoDup_first_line items it :
  NoDup (map productId items) → it ∈ items → first_line items it.
Proof.
  intros Hnd Hin. apply list_elem_of_split in Hin as (l1 & l2 & ->).
  exists l1, l2. split; [done|]. intros x Hx Heq.
  rewrite map_app in Hnd. apply NoDup_app in Hnd as (_ & Hdisj & _).
  apply (Hdisj (productId x)).
  - apply list_elem_of_fmap. by exists x.
  - simpl. rewrite Heq. left.
Qed.

Lemma occurrences_absent (ids : list string) i :
  i ∉ ids → occurrences i ids = 0%nat.
Proof.
  induction ids as [|j ids IH]; intros Hin; [done|].
  apply not_elem_of_cons in Hin as [Hne Hin].
  rewrite occurrences_cons_ne by done. by apply IH.
Qed.

Lemma NoDup_occurrences (ids : list string) i :
  NoDup ids → i ∈ ids → occurrences i ids = 1%nat.
Proof.
  induction 1 as [|j ids Hj Hnd IH]; intros Hin.
  - by apply elem_of_nil in Hin.
  - apply elem_of_cons in Hin as [->|Hin].
    + by rewrite occurrences_cons_eq, occurrences_absent.
    + rewrite occurrences_cons_ne; [by apply IH|]. intros ->. done.
Qed.

(** ** Fetching *)

Lemma sum_of_lines_snoc items it :
  sum_of_lines (items ++ [it])
  = (sum_of_lines items + line_amount it)%float.
Proof. unfold sum_of_lines. by rewrite rev_app_distr. Qed.

Lemma order_total_snoc items it :
  order_total (items ++ [it])
  = (order_total items + unitPrice it * number (quantity it))%float.
Proof. unfold order_total. by rewrite fold_left_app. Qed.

Lemma order_total_sum items : order_total items = sum_of_lines items.
Proof.
  induction items as [|it items IH] using rev_ind; [done|].
  by rewrite order_total_snoc, sum_of_lines_snoc, IH.
Qed.

Lemma GET_orders_id_response oid db :
  (GET_orders_id oid db).1
  = match order db !! oid with
    | Some d =>
        send (order_json {| order_id := oid; order_fields := d;
                            orderItems := items_of oid db;
                            total := Some (sum_of_lines (items_of oid db)) |})
    | None => {| status := 404; body := status_text |}
    end.
Proof.
  unfold GET_orders_id, asyncHandler, get_orders_id, bind,
    order_findUniqueOrThrow.
  destruct (order db !! oid); [|done]. simpl.
  by rewrite order_total_sum.
Qed.

Lemma GET_orders_id_store oid db : (GET_orders_id oid db).2 = db.
Proof.
  unfold GET_orders_id, asyncHandler, get_orders_id, bind,
    order_findUniqueOrThrow.
  by destruct (order db !! oid).
Qed.

(** C6: for every stored order, the fetch by identifier answers 200 with
    the order, its item rows, and a [total] set on that fetch to the sum
    over these rows, in the order they come, of unit price times quantity,
    in the arithmetic of JS numbers; nothing but the rows enters the
    total, and the store is left as it was. *)
Theorem fetch_recomputes_total oid d db :
  order db !! oid = Some d →
  GET_orders_id oid db
  = ({| status := 200;
        body := order_json
                  {| order_id := oid; order_fields := d;
                     orderItems := items_of oid db;
                     total := Some (sum_of_lines (items_of oid db)) |} |},
     db).
Proof.
  intros H. rewrite (surjective_pairing (GET_orders_id oid db)).
  by rewrite GET_orders_id_response, GET_orders_id_store, H.
Qed.

(** The order of the spec's example, 2 at 10 and 1 at 5, reports 25. *)
Lemma fetch_recomputes_total_25 :
  Fixture.shop_with_order.(order) !! "o1" = Some {| userId := "u1" |}
  ∧ ∃ o, GET_orders_id "o1" Fixture.shop_with_order
         = ({| status := 200; body := order_json o |}, Fixture.shop_with_order)
         ∧ total o = Some 25%float.
Proof.
  split; [reflexivity|].
  eexists. split.
  - apply (fetch_recomputes_total "o1" {| userId := "u1" |}). reflexivity.
  - reflexivity.
Defined.

(** The total is a sum of doubles: past 2^53 it is rounded as the code
    rounds it, and a price need not be whole. *)
Example total_is_rounded_as_a_double :
  order_total [ {| orderId := "o1";
                   columns := Fixture.line "p1" 9007199254740991 1 |};
                {| orderId := "o1"; columns := Fixture.line "p2" 1 2 |} ]
  = 9007199254740992%float.
Proof. reflexivity. Qed.

Example total_of_a_fractional_price :
  order_total [ {| orderId := "o1"; columns := Fixture.line "p1" 0.5 3 |} ]
  = 1.5%float.
Proof. reflexivity. Qed.

(** C8: for every identifier with no stored order, the fetch answers 404
    (the P2025 of [findUniqueOrThrow], through [asyncHandler]) and leaves
    the store as it was. *)
Theorem fetch_absent_order_404 oid db :
  order db !! oid = None →
  GET_orders_id oid db = ({| status := 404; body := status_text |}, db).
Proof.
  intros H. rewrite (surjective_pairing (GET_orders_id oid db)).
  by rewrite GET_orders_id_response, GET_orders_id_store, H.
Qed.

Lemma fetch_absent_order_404_shop :
  Fixture.shop.(order) !! "o9" = None
  ∧ GET_orders_id "o9" Fixture.shop
    = ({| status := 404; body := status_text |}, Fixture.shop).
Proof.
  split; [reflexivity|].
  apply (fetch_absent_order_404 "o9" Fixture.shop). reflexivity.
Defined.

(** C10: the fetch of a product by an identifier with no row answers 200
    with a null body and leaves the store alone, where the fetch of a user
    or of an order by an identifier with no row answers 404. *)
Theorem absent_product_200_absent_user_order_404 pid uid oid db :
  product db !! pid = None →
  user db !! uid = None →
  order db !! oid = None →
  GET_products_id pid db = ({| status := 200; body := product_json None |}, db)
  ∧ GET_users_id uid db = ({| status := 404; body := status_text |}, db)
  ∧ GET_orders_id oid db = ({| status := 404; body := status_text |}, db).
Proof.
  intros Hp Hu Ho. split; [|split].
  - unfold GET_products_id, asyncHandler, get_products_id, bind,
      product_findUnique. by rewrite Hp.
  - unfold GET_users_id, asyncHandler, get_users_id, bind,
      user_findUniqueOrThrow. by rewrite Hu.
  - rewrite (surjective_pairing (GET_orders_id oid db)).
    by rewrite GET_orders_id_response, GET_orders_id_store, Ho.
Qed.

Lemma absent_product_200_absent_user_order_404_shop :
  (Fixture.shop.(product) !! "p9" = None
   ∧ Fixture.shop.(user) !! "u9" = None
   ∧ Fixture.shop.(order) !! "o9" = None)
  ∧ GET_products_id "p9" Fixture.shop
    = ({| status := 200; body := product_json None |}, Fixture.shop)
  ∧ GET_users_id "u9" Fixture.shop
    = ({| status := 404; body := status_text |}, Fixture.shop)
  ∧ GET_orders_id "o9" Fixture.shop
    = ({| status := 404; body := status_text |}, Fixture.shop).
Proof.
  split; [by repeat split|].
  apply (absent_product_200_absent_user_order_404 "p9" "u9" "o9" Fixture.shop);
    reflexivity.
Defined.

(** ** Unit prices *)

Lemma PATCH_products_id_frame PatchProduct req db :
  let db' := (PATCH_products_id PatchProduct req db).2 in
  order db' = order db ∧ orderItem db' = orderItem db ∧ user db' = user db.
Proof.
  unfold PATCH_products_id, asyncHandler, patch_products_id, assert.
  destruct (PatchProduct req.2); unfold bind, throw, ret, product_update;
    cbn zeta; [done|].
  by destruct (product db !! req.1).
Qed.

(** C7, as the code has it: the unit price of an order item is the one the
    request's line item carries (the handler creates the rows from the
    lines as they are and never reads the product's price), stored when the
    order is placed; a later change of a product, its price included,
    leaves every order item row, and so the response of every order fetch
    with its total, as it was. *)
Theorem unit_price_snapshot_of_request
    CreateOrder PatchProduct env req patch oid db :
  (let '(res, db1) := POST_orders CreateOrder env req db in
   status res = 201 →
   orderItem db1
   = orderItem db
     ++ ((λ c, {| orderId := uuid env; columns := c |}) <$> body_orderItems req))
  ∧ (let db2 := (PATCH_products_id PatchProduct patch db).2 in
     orderItem db2 = orderItem db
     ∧ (GET_orders_id oid db2).1 = (GET_orders_id oid db).1).
Proof.
  split.
  - pose proof (POST_orders_all_or_nothing CreateOrder env req db) as H.
    destruct (POST_orders CreateOrder env req db) as [res db1].
    intros H201. destruct H as [(_ & _ & -> & _)|[Hne _]]; [done|congruence].
  - destruct (PATCH_products_id_frame PatchProduct patch db) as (Ho & Hi & _).
    cbn zeta in *. split; [done|].
    rewrite !GET_orders_id_response. unfold items_of. by rewrite Ho, Hi.
Qed.

(** Against C7 as stated: the product costs 10, the request's line says 7,
    the placement succeeds and the row stored carries 7. *)
Lemma unit_price_not_from_product :
  price <$> Fixture.shop.(product) !! "p1" = Some 10%float
  ∧ (let '(res, db') :=
       POST_orders CreateOrder_spec (Fixture.quiet "o1")
         (Fixture.request [Fixture.line "p1" 7 1]) Fixture.shop in
     status res = 201
     ∧ map (λ it : OrderItem, (productId it, unitPrice it)) (orderItem db')
       = [("p1", 7%float)]).
Proof. vm_compute. done. Qed.

(** The example of the spec: an order that totals 25 still totals 25 once
    the price of its product has been changed to 99. *)
Example total_25_after_price_99 :
  let db2 :=
    (PATCH_products_id Fixture.accept_all
       ("p1", {| patch_price := Some 99%float; patch_stock := None |})
       Fixture.shop_with_order).2 in
  price <$> product db2 !! "p1" = Some 99%float
  ∧ ∃ o, (GET_orders_id "o1" db2).1 = {| status := 200; body := order_json o |}
         ∧ total o = Some 25%float.
Proof. vm_compute. split; [done|]. eexists. split; reflexivity. Qed.

(** ** Refusals *)

(** C2, as the code has it: when the first line item that names some
    product asks for more than the product's stock, the placement fails
    with the plain [Error('Insufficient Stock')], which [asyncHandler]
    reports as status 500 with that message and nothing else; the store
    is left as it was (no stock changes, no order row). *)
Theorem insufficient_stock_is_500 CreateOrder env req db l1 it l2 d :
  CreateOrder req = None →
  body_orderItems req = l1 ++ it :: l2 →
  (∀ x, x ∈ l1 → productId x ≠ productId it) →
  product db !! productId it = Some d →
  stock d < quantity it →
  POST_orders CreateOrder env req db
  = ({| status := 500; body := message_json "Insufficient Stock" |}, db).
Proof.
  intros Hvalid Hsplit Hfirst Hd Hlt.
  apply POST_orders_insufficient; [done|].
  assert (first_line (body_orderItems req) it) as Hit by (by exists l1, l2).
  eapply not_sufficient; [by apply first_line_named|exact Hd|].
  by rewrite (first_line_quantity _ _ Hit).
Qed.

Lemma insufficient_stock_is_500_shop :
  POST_orders CreateOrder_spec (Fixture.quiet "o1")
    (Fixture.request [Fixture.line "p1" 10 6]) Fixture.shop
  = ({| status := 500; body := message_json "Insufficient Stock" |},
     Fixture.shop).
Proof.
  apply (insufficient_stock_is_500 CreateOrder_spec (Fixture.quiet "o1")
           (Fixture.request [Fixture.line "p1" 10 6]) Fixture.shop
           [] (Fixture.line "p1" 10 6) [] {| price := 10; stock := 5 |}).
  - reflexivity.
  - reflexivity.
  - intros x Hx. by apply elem_of_nil in Hx.
  - reflexivity.
  - simpl. lia.
Defined.

(** Against C2 as stated: 6 units of a product that has 5 are refused with
    status 500, which is not a client error, and with a body that names no
    product. *)
Lemma insufficient_stock_not_client_error :
  stock <$> Fixture.shop.(product) !! "p1" = Some 5
  ∧ (let '(res, db') :=
       POST_orders CreateOrder_spec (Fixture.quiet "o1")
         (Fixture.request [Fixture.line "p1" 10 6]) Fixture.shop in
     status res = 500
     ∧ ¬ (400 ≤ status res < 500)
     ∧ body res = message_json "Insufficient Stock").
Proof. vm_compute. split; [done|]. split; [done|]. split; [|done]. intros [_ H]. done. Qed.



(** The same request under a storage layer that refuses the order insert
    (statement 0), as a schema with a foreign key from the order items to
    the products would: refused all the same, with status 500. *)
Example missing_product_constraint_first :
  POST_orders CreateOrder_spec
    {| uuid := "o1";
       fault := λ k, if decide (k = 0%nat)
                     then Some (PrismaClientKnownRequestError "P2003"
                                  "Foreign key constraint failed")
                     else None |}
    (Fixture.request [Fixture.line "p1" 10 1; Fixture.line "p9" 3 1])
    Fixture.shop
  = ({| status := 500; body := message_json "Foreign key constraint failed" |},
     Fixture.shop).
Proof. vm_compute. reflexivity. Qed.


(** ** The commit *)

(** C3: the order row, the order item rows and all the stock decrements of
    a placement become visible together, with the 201, or not at all: in
    every other case, and in particular when the storage layer fails at
    any statement of the transaction (the order insert is statement 0, the
    decrement of the [k]-th line is statement [k]), the store is the one
    from before the request. *)
Theorem placement_is_all_or_nothing CreateOrder env req db :
  let '(res, db') := POST_orders CreateOrder env req db in
  ((status res = 201
    ∧ order db' = <[uuid env := body_orderFields req]> (order db)
    ∧ orderItem db' = orderItem db ++ new_rows env req
    ∧ product db'
      = decrement_all (firstQuantity (body_orderItems req))
          (map productId (body_orderItems req)) (product db)
    ∧ db' = committed env req db)
   ∨ (status res ≠ 201 ∧ db' = db))
  ∧ ∀ k, (k ≤ length (body_orderItems req))%nat →
         is_Some (fault env k) →
         status res ≠ 201 ∧ db' = db.
Proof.
  pose proof (POST_orders_all_or_nothing CreateOrder env req db) as H.
  destruct (POST_orders CreateOrder env req db) as [res db'].
  destruct H as [(H201 & _ & -> & Hfault)|[Hne ->]].
  - split; [left; done|]. intros k Hk [e He].
    rewrite (Hfault k Hk) in He. done.
  - split; [right; done|]. done.
Qed.

(** A storage fault at statement 2, after the order insert and the first
    decrement: nothing of the placement is visible. *)
Example fault_between_decrements_rolls_back :
  POST_orders CreateOrder_spec (Fixture.failing "o1" 2)
    (Fixture.request [Fixture.line "p1" 10 2; Fixture.line "p2" 5 1])
    Fixture.shop
  = ({| status := 500; body := message_json "storage fault" |}, Fixture.shop).
Proof. vm_compute. reflexivity. Qed.

(** The same request without the fault. *)
Example placement_of_two_lines :
  let '(res, db') :=
    POST_orders CreateOrder_spec (Fixture.quiet "o1")
      (Fixture.request [Fixture.line "p1" 10 2; Fixture.line "p2" 5 1])
      Fixture.shop in
  status res = 201
  ∧ stock <$> product db' !! "p1" = Some 3
  ∧ stock <$> product db' !! "p2" = Some 0
  ∧ order db' !! "o1" = Some {| userId := "u1" |}
  ∧ length (orderItem db') = 2%nat.
Proof. vm_compute. done. Qed.

(** ** Line items that name the same product *)

Lemma lookup_committed env req db i :
  product (committed env req db) !! i
  = (λ d, {| price := price d;
             stock := stock d
                      - firstQuantity (body_orderItems req) i
                        * Z.of_nat (occurrences i
                                      (map productId (body_orderItems req))) |})
      <$> product db !! i.
Proof. unfold committed. simpl. apply lookup_decrement_all. Qed.

(** C9: in a placement whose products all exist, the admission check
    compares each product's stock with the quantity of the first line item
    that names it, and nothing else; once the placement is let through, the
    product's stock is reduced by that first quantity once per line item
    that names the product. *)
Theorem repeated_product_uses_first_quantity CreateOrder env req db :
  CreateOrder req = None →
  order db !! uuid env = None →
  (∀ j, fault env j = None) →
  Forall (λ i, is_Some (product db !! i)) (map productId (body_orderItems req)) →
  let items := body_orderItems req in
  let '(res, db') := POST_orders CreateOrder env req db in
  (status res = 201 ↔
   ∀ it d, first_line items it → product db !! productId it = Some d →
           quantity it ≤ stock d)
  ∧ (status res = 201 →
     ∀ it d, first_line items it → product db !! productId it = Some d →
             product db' !! productId it
             = Some {| price := price d;
                       stock := stock d
                                - quantity it
                                  * Z.of_nat (occurrences (productId it)
                                                (map productId items)) |}).
Proof.
  intros Hvalid Hfresh Hfault Hall items. subst items.
  destruct (sufficient (body_orderItems req) db) eqn:Hs.
  - rewrite POST_orders_commits by done. split.
    + split; [|done]. intros _.
      by apply admission_ok_first_lines, sufficient_admission_ok.
    + intros _ it d Hit Hd.
      rewrite lookup_committed, Hd, (first_line_quantity _ _ Hit). done.
  - rewrite POST_orders_insufficient by done. split; [|done].
    split; [done|]. intros Ha.
    apply admission_ok_first_lines, sufficient_admission_ok in Ha. congruence.
Qed.

(** Two lines for p1, of 2 and of 3 units, stock 5: let through, and the
    stock goes to 5 - 2 * 2 = 1, not to 5 - (2 + 3). *)
Lemma repeated_product_uses_first_quantity_shop :
  let '(res, db') :=
    POST_orders CreateOrder_spec (Fixture.quiet "o1")
      (Fixture.request [Fixture.line "p1" 10 2; Fixture.line "p1" 10 3])
      Fixture.shop in
  status res = 201
  ∧ product db' !! "p1" = Some {| price := 10; stock := 1 |}.
Proof.
  pose proof (repeated_product_uses_first_quantity CreateOrder_spec
                (Fixture.quiet "o1")
                (Fixture.request [Fixture.line "p1" 10 2; Fixture.line "p1" 10 3])
                Fixture.shop eq_refl eq_refl (λ _, eq_refl)) as H.
  cbn zeta in H.
  destruct (POST_orders _ _ _ _) as [res db'].
  destruct H as [Hadm Hstock].
  { repeat constructor; by eexists. }
  assert (status res = 201) as H201.
  { apply Hadm. intros it d (l1 & l2 & Heq & Hl1) Hd.
    destruct l1 as [|x l1].
    - injection Heq as <- _. vm_compute in Hd. injection Hd as <-. simpl. lia.
    - injection Heq as <- Heq. destruct l1 as [|y l1].
      + injection Heq as <- _. exfalso. apply (Hl1 (Fixture.line "p1" 10 2)); [left|done].
      + injection Heq as _ Heq. by destruct l1. }
  split; [done|].
  apply (Hstock H201 (Fixture.line "p1" 10 2) {| price := 10; stock := 5 |}).
  - exists [], [Fixture.line "p1" 10 3]. split; [done|].
    intros x Hx. by apply elem_of_nil in Hx.
  - reflexivity.
Defined.

(** ** Stock after a placement *)

(** Where the line items name pairwise distinct products that exist and
    every line asks for no more than the stock, the placement succeeds and
    each product named loses the quantity of its line. *)
Lemma distinct_lines_commit CreateOrder env req db :
  CreateOrder req = None →
  order db !! uuid env = None →
  (∀ j, fault env j = None) →
  NoDup (map productId (body_orderItems req)) →
  (∀ it, it ∈ body_orderItems req →
         ∃ d, product db !! productId it = Some d ∧ quantity it ≤ stock d) →
  let '(res, db') := POST_orders CreateOrder env req db in
  res = {| status := 201; body := order_json (new_order env req) |}
  ∧ order db' !! uuid env = Some (body_orderFields req)
  ∧ orderItem db' = orderItem db ++ new_rows env req
  ∧ ∀ it d, it ∈ body_orderItems req →
            product db !! productId it = Some d →
            product db' !! productId it
            = Some {| price := price d; stock := stock d - quantity it |}.
Proof.
  intros Hvalid Hfresh Hfault Hnd Hlines.
  rewrite POST_orders_commits; try done.
  - split; [done|]. split; [apply lookup_insert_eq|]. split; [done|].
    intros it d Hit Hd. rewrite lookup_committed, Hd. simpl.
    rewrite (first_line_quantity _ it) by by apply NoDup_first_line.
    rewrite NoDup_occurrences; [|done|apply list_elem_of_fmap; by exists it].
    do 2 f_equal. lia.
  - apply Forall_forall. intros i Hi.
    apply list_elem_of_fmap in Hi as (it & -> & Hit).
    destruct (Hlines it Hit) as (d & -> & _). done.
  - apply sufficient_admission_ok, admission_ok_first_lines.
    intros it d (l1 & l2 & Heq & _) Hd.
    destruct (Hlines it) as (d' & Hd' & Hle).
    { rewrite Heq. apply elem_of_app. right. left. }
    congruence.
Qed.

(** C1 at a request with two lines for one product: each line asks for no
    more than the stock of 5, the placement succeeds, and the stock left is
    1: neither 5 - 2 nor 5 - 3 nor 5 - (2 + 3). *)
Theorem repeated_product_stock_after_placement :
  let items := [Fixture.line "p1" 10 2; Fixture.line "p1" 10 3] in
  let '(res, db') :=
    POST_orders CreateOrder_spec (Fixture.quiet "o1") (Fixture.request items)
      Fixture.shop in
  stock <$> Fixture.shop.(product) !! "p1" = Some 5
  ∧ Forall (λ it, quantity it ≤ 5) items
  ∧ status res = 201
  ∧ map (λ it : OrderItem, quantity it) (orderItem db') = [2; 3]
  ∧ stock <$> product db' !! "p1" = Some 1.
Proof.
  vm_compute. split; [done|]. split; [|done].
  repeat constructor; by intros ?.
Qed.

(** ** Two placements at once *)

(** A request that takes its two turns in a row is the handler run from
    its start to its response. *)
Lemma schedule_alone CreateOrder env req db :
  schedule CreateOrder [0; 0]%nat [received env req] db
  = ([responded (POST_orders CreateOrder env req db).1],
     (POST_orders CreateOrder env req db).2).
Proof.
  unfold POST_orders, asyncHandler, post_orders. cbn [schedule lookup].
  simpl. unfold bind at 1 2.
  destruct (post_orders_lookup CreateOrder req db) as [[e|products] db1];
    simpl; [done|].
  by destruct (post_orders_commit env req products db1)
    as [[e|res] db2].
Qed.

(** C4 at the two placements of the spec's example (stock 5, 3 units
    each), both having read the products before either commits: the
    decrement at commit time is not conditioned on the stock, both are
    answered 201 and the stock left is -1. *)
Theorem interleaved_placements_oversell :
  let req := Fixture.request [Fixture.line "p1" 10 3] in
  let '(tasks, db') :=
    schedule CreateOrder_spec [0; 1; 0; 1]%nat
      [received (Fixture.quiet "o1") req; received (Fixture.quiet "o2") req]
      Fixture.shop in
  stock <$> Fixture.shop.(product) !! "p1" = Some 5
  ∧ statuses tasks = [Some 201; Some 201]
  ∧ stock <$> product db' !! "p1" = Some (-1).
Proof. vm_compute. done. Qed.

(** The same two placements one after the other: the second is refused,
    with status 500, and the stock left is 2. *)
Example successive_placements :
  let req := Fixture.request [Fixture.line "p1" 10 3] in
  let '(tasks, db') :=
    schedule CreateOrder_spec [0; 0; 1; 1]%nat
      [received (Fixture.quiet "o1") req; received (Fixture.quiet "o2") req]
      Fixture.shop in
  statuses tasks = [Some 201; Some 500]
  ∧ stock <$> product db' !! "p1" = Some 2.
Proof. vm_compute. done. Qed.

(** * Further properties of the handlers *)

(** ** What a 201 of a placement implies *)

Lemma POST_orders_201_inv CreateOrder env req db :
  let '(res, db') := POST_orders CreateOrder env req db in
  status res = 201 →
  CreateOrder req = None
  ∧ admission_ok (body_orderItems req) db
  ∧ all_present req db
  ∧ order db !! uuid env = None
  ∧ (∀ k, (k ≤ length (body_orderItems req))%nat → fault env k = None)
  ∧ body res = order_json (new_order env req)
  ∧ db' = committed env req db.
Proof.
  unfold POST_orders, asyncHandler.
  destruct (CreateOrder req) as [message|] eqn:Hvalid.
  - by rewrite (post_orders_invalid _ _ _ _ _ Hvalid).
  - rewrite (post_orders_valid _ _ _ _ Hvalid).
    destruct (sufficient (body_orderItems req) db) eqn:Hs; [|done].
    destruct (transaction env (statements req) db) as [[e|rs] db'] eqn:Htx.
    + intros H. exfalso. destruct e; simpl in H; try done.
      by case_bool_decide.
    + intros _.
      pose proof (transaction_no_fault _ _ _ _ _ Htx) as Hfault.
      pose proof (transaction_statements_inv _ _ _ _ _ Htx) as [-> Hbody].
      unfold transaction in Htx.
      destruct (run_from env 0 (statements req) db) as [[e|rs'] db''] eqn:Hrun;
        [done|].
      apply run_from_order_insert in Hrun as [Hfresh Hall].
      split; [done|]. split; [by apply sufficient_admission_ok|]. done.
Qed.

(** X2: a placement is answered 201 only if the body conforms to the
    struct, the admission check passes, every product named has a row, the
    identifier generated for the order is new, and the storage layer fails
    at no statement; the store is then the committed one. *)
Theorem placement_201_only_if CreateOrder env req db :
  let '(res, db') := POST_orders CreateOrder env req db in
  status res = 201 →
  CreateOrder req = None
  ∧ admission_ok (body_orderItems req) db
  ∧ all_present req db
  ∧ order db !! uuid env = None
  ∧ (∀ k, (k ≤ length (body_orderItems req))%nat → fault env k = None)
  ∧ body res = order_json (new_order env req)
  ∧ db' = committed env req db.
Proof. exact (POST_orders_201_inv CreateOrder env req db). Qed.

(** X1: the outcomes of a placement under a storage layer that raises
    nothing and generates a new identifier.  A body the struct refuses is
    answered 400 with the struct's message; else a failed admission check
    is answered 500; else a product named without a row is answered 404;
    else the answer is 201 with the order.  Only the last changes the
    store. *)
Theorem placement_outcomes CreateOrder env req db :
  order db !! uuid env = None →
  (∀ j, fault env j = None) →
  (∀ message, CreateOrder req = Some message →
     POST_orders CreateOrder env req db
     = ({| status := 400; body := message_json message |}, db))
  ∧ (CreateOrder req = None → ¬ admission_ok (body_orderItems req) db →
     POST_orders CreateOrder env req db
     = ({| status := 500; body := message_json "Insufficient Stock" |}, db))
  ∧ (CreateOrder req = None → admission_ok (body_orderItems req) db →
     ¬ all_present req db →
     POST_orders CreateOrder env req db
     = ({| status := 404; body := status_text |}, db))
  ∧ (CreateOrder req = None → admission_ok (body_orderItems req) db →
     all_present req db →
     POST_orders CreateOrder env req db
     = ({| status := 201; body := order_json (new_order env req) |},
        committed env req db)).
Proof.
  intros Hfresh Hfault. split; [|split; [|split]].
  - intros message Hm. unfold POST_orders, asyncHandler.
    by rewrite (post_orders_invalid _ _ _ _ _ Hm).
  - intros Hvalid Hna. apply POST_orders_insufficient; [done|].
    apply not_true_is_false. intros Hs. by apply Hna, sufficient_admission_ok.
  - intros Hvalid Ha Hnp. apply sufficient_admission_ok in Ha.
    unfold all_present in Hnp. apply not_Forall_Exists in Hnp; [|apply _].
    apply Exists_exists in Hnp as (i & Hin & Hi).
    apply (POST_orders_missing _ _ _ _ i); try done.
    by apply eq_None_not_Some.
  - intros Hvalid Ha Hall. apply sufficient_admission_ok in Ha.
    by apply POST_orders_commits.
Qed.

Lemma placement_outcomes_shop :
  POST_orders CreateOrder_spec (Fixture.quiet "o1")
    (Fixture.request [Fixture.line "p1" 10 2]) Fixture.shop
  = ({| status := 201;
        body := order_json (new_order (Fixture.quiet "o1")
                              (Fixture.request [Fixture.line "p1" 10 2])) |},
     committed (Fixture.quiet "o1") (Fixture.request [Fixture.line "p1" 10 2])
       Fixture.shop).
Proof.
  apply (placement_outcomes CreateOrder_spec (Fixture.quiet "o1")
           (Fixture.request [Fixture.line "p1" 10 2]) Fixture.shop
           eq_refl (λ _, eq_refl)).
  - reflexivity.
  - apply sufficient_admission_ok. reflexivity.
  - repeat constructor. by eexists.
Defined.

Lemma placement_201_only_if_shop :
  admission_ok [Fixture.line "p1" 10 2] Fixture.shop
  ∧ (POST_orders CreateOrder_spec (Fixture.quiet "o1")
       (Fixture.request [Fixture.line "p1" 10 2]) Fixture.shop).2
    = committed (Fixture.quiet "o1") (Fixture.request [Fixture.line "p1" 10 2])
        Fixture.shop.
Proof.
  pose proof (placement_201_only_if CreateOrder_spec (Fixture.quiet "o1")
                (Fixture.request [Fixture.line "p1" 10 2]) Fixture.shop) as H.
  destruct (POST_orders _ _ _ _) as [res db'] eqn:Hrun.
  assert (status res = 201) as H201.
  { change res with (res, db').1. rewrite <- Hrun. reflexivity. }
  destruct (H H201) as (_ & Ha & _ & _ & _ & _ & ->). done.
Defined.

(** ** What a placement leaves alone *)

Lemma order_committed env req db j :
  j ≠ uuid env → order (committed env req db) !! j = order db !! j.
Proof. intros Hj. unfold committed. simpl. by rewrite lookup_insert_ne. Qed.

(** X3: whatever the request, the response and the faults, a placement
    leaves the users as they were, keeps every order row and every order
    item row that was stored (new item rows come after the old ones),
    leaves the row of every product the request does not name as it was,
    changes no price, and neither adds nor removes a product. *)
Theorem placement_frame CreateOrder env req db :
  let '(res, db') := POST_orders CreateOrder env req db in
  user db' = user db
  ∧ (∀ j d, order db !! j = Some d → order db' !! j = Some d)
  ∧ (∃ rows, orderItem db' = orderItem db ++ rows)
  ∧ (∀ i, i ∉ map productId (body_orderItems req) →
          product db' !! i = product db !! i)
  ∧ (∀ i, price <$> product db' !! i = price <$> product db !! i)
  ∧ dom (product db') = dom (product db).
Proof.
  pose proof (POST_orders_201_inv CreateOrder env req db) as H201.
  pose proof (POST_orders_all_or_nothing CreateOrder env req db) as H.
  destruct (POST_orders CreateOrder env req db) as [res db'].
  destruct H as [(Hs & _)|[_ ->]].
  - destruct (H201 Hs) as (_ & _ & _ & Hfresh & _ & _ & ->).
    split; [done|]. split; [|split; [|split; [|split]]].
    + intros j d Hj. rewrite order_committed; [done|]. congruence.
    + by eexists.
    + intros i Hi. rewrite lookup_committed, occurrences_absent by done.
      destruct (product db !! i) as [[pr st]|]; simpl; [|done].
      do 2 f_equal. lia.
    + intros i. rewrite lookup_committed. by destruct (product db !! i).
    + apply set_eq. intros i. rewrite !elem_of_dom, lookup_committed.
      by rewrite fmap_is_Some.
  - split; [done|]. split; [done|]. split; [exists []; by rewrite app_nil_r|].
    done.
Qed.

Lemma filter_new_rows_self env req :
  filter (λ it, orderId it = uuid env) (new_rows env req) = new_rows env req.
Proof.
  unfold new_rows. induction (body_orderItems req) as [|c l IH]; [done|].
  rewrite fmap_cons, filter_cons_True by done. by rewrite IH.
Qed.

Lemma filter_new_rows_other env req oid :
  oid ≠ uuid env →
  filter (λ it, orderId it = oid) (new_rows env req) = [].
Proof.
  intros Hoid. unfold new_rows.
  induction (body_orderItems req) as [|c l IH]; [done|].
  rewrite fmap_cons, filter_cons_False; [done|]. simpl. congruence.
Qed.

(** X4: a placement leaves the fetch of every other order as it was: for
    an identifier other than the one generated for the new order, the
    response of [GET /orders/:id] is the same before and after. *)
Theorem placement_keeps_other_orders CreateOrder env req db oid :
  oid ≠ uuid env →
  (GET_orders_id oid (POST_orders CreateOrder env req db).2).1
  = (GET_orders_id oid db).1.
Proof.
  intros Hoid.
  pose proof (POST_orders_all_or_nothing CreateOrder env req db) as H.
  destruct (POST_orders CreateOrder env req db) as [res db'].
  destruct H as [(_ & _ & -> & _)|[_ ->]]; [|done].
  cbn [snd].
  rewrite !GET_orders_id_response, order_committed by done.
  unfold items_of, committed. simpl. rewrite filter_app.
  by rewrite filter_new_rows_other, app_nil_r.
Qed.

Lemma placement_keeps_other_orders_shop :
  (GET_orders_id "o1"
     (POST_orders CreateOrder_spec (Fixture.quiet "o2")
        (Fixture.request [Fixture.line "p1" 10 2]) Fixture.shop_with_order).2).1
  = (GET_orders_id "o1" Fixture.shop_with_order).1.
Proof.
  apply (placement_keeps_other_orders CreateOrder_spec (Fixture.quiet "o2")).
  done.
Defined.

(** X5: place, then fetch.  In a store whose order item rows all belong
    to stored orders, a placement answered 201 is followed by a fetch of
    the new order that answers 200 with the order, with the request's line
    items as its rows (the same lines, each as often as the request has
    it, all under the new identifier), and with the total of the rows as
    they are returned. *)
Theorem place_then_fetch CreateOrder env req db :
  (∀ it, it ∈ orderItem db → is_Some (order db !! orderId it)) →
  (POST_orders CreateOrder env req db).1.(status) = 201 →
  let db' := (POST_orders CreateOrder env req db).2 in
  ∃ o, GET_orders_id (uuid env) db'
       = ({| status := 200; body := order_json o |}, db')
       ∧ order_id o = uuid env
       ∧ order_fields o = body_orderFields req
       ∧ columns <$> orderItems o ≡ₚ body_orderItems req
       ∧ Forall (λ it, orderId it = uuid env) (orderItems o)
       ∧ total o = Some (sum_of_lines (orderItems o)).
Proof.
  intros Hrows H201.
  pose proof (POST_orders_201_inv CreateOrder env req db) as H.
  destruct (POST_orders CreateOrder env req db) as [res db']. simpl in *.
  destruct (H H201) as (_ & _ & _ & Hfresh & _ & _ & ->).
  assert (items_of (uuid env) (committed env req db) = new_rows env req) as Hitems.
  { unfold items_of, committed. simpl.
    rewrite filter_app, filter_new_rows_self.
    replace (filter (λ it, orderId it = uuid env) (orderItem db))
      with (@nil OrderItem); [done|].
    symmetry. induction (orderItem db) as [|it l IH]; [done|].
    rewrite filter_cons_False.
    - apply IH. intros x Hx. apply Hrows. by right.
    - intros Heq. destruct (Hrows it) as [d Hd]; [left|].
      rewrite Heq, Hfresh in Hd. done. }
  eexists. split.
  { rewrite (surjective_pairing (GET_orders_id (uuid env) (committed env req db))).
    rewrite GET_orders_id_response, GET_orders_id_store, Hitems.
    unfold committed at 1. simpl. rewrite lookup_insert_eq. reflexivity. }
  simpl. split; [done|]. split; [done|]. split; [|split; [|done]].
  - unfold new_rows. rewrite <- list_fmap_compose.
    by rewrite list_fmap_id.
  - unfold new_rows. apply Forall_fmap, Forall_true. done.
Qed.

Lemma place_then_fetch_shop :
  ∃ o, (GET_orders_id "o2"
          (POST_orders CreateOrder_spec (Fixture.quiet "o2")
             (Fixture.request [Fixture.line "p1" 10 2; Fixture.line "p2" 5 1])
             Fixture.shop_with_order).2).1
       = {| status := 200; body := order_json o |}
       ∧ columns <$> orderItems o
         ≡ₚ [Fixture.line "p1" 10 2; Fixture.line "p2" 5 1]
       ∧ total o = Some (sum_of_lines (orderItems o)).
Proof.
  destruct (place_then_fetch CreateOrder_spec (Fixture.quiet "o2")
              (Fixture.request [Fixture.line "p1" 10 2; Fixture.line "p2" 5 1])
              Fixture.shop_with_order)
    as (o & Hget & _ & _ & Hperm & _ & Htotal).
  - intros it Hit. repeat (apply elem_of_cons in Hit as [->|Hit]);
      [by eexists..|by apply elem_of_nil in Hit].
  - reflexivity.
  - exists o. split; [|done].
    change (uuid (Fixture.quiet "o2")) with "o2" in Hget. by rewrite Hget.
Defined.

(** ** Invariants of the store *)

Lemma dom_committed env req db i :
  is_Some (product (committed env req db) !! i) ↔ is_Some (product db !! i).
Proof. by rewrite lookup_committed, fmap_is_Some. Qed.

(** X6: placements and product patches keep the references of the order
    item rows whole: if every row belongs to a stored order and names a
    stored product before the request, so it does after, whatever the
    request and whatever the response. *)
Theorem integrity_is_kept CreateOrder PatchProduct env req patch db :
  integrity db →
  integrity (POST_orders CreateOrder env req db).2
  ∧ integrity (PATCH_products_id PatchProduct patch db).2.
Proof.
  intros Hint. split.
  - pose proof (POST_orders_201_inv CreateOrder env req db) as H201.
    pose proof (POST_orders_all_or_nothing CreateOrder env req db) as H.
    destruct (POST_orders CreateOrder env req db) as [res db'].
    destruct H as [(Hs & _)|[_ ->]]; [|done].
    destruct (H201 Hs) as (_ & _ & Hall & Hfresh & _ & _ & ->).
    unfold integrity. cbn [snd]. intros it Hit. rewrite dom_committed.
    unfold committed in Hit. simpl in Hit.
    apply elem_of_app in Hit as [Hit|Hit].
    + destruct (Hint it Hit) as [[d Hd] Hp]. split; [|done].
      exists d. rewrite order_committed; [done|]. congruence.
    + unfold new_rows in Hit.
      apply list_elem_of_fmap in Hit as (c & -> & Hc). simpl. split.
      * unfold committed. simpl. rewrite lookup_insert_eq. by eexists.
      * unfold all_present in Hall. rewrite Forall_forall in Hall.
        apply Hall, list_elem_of_fmap. by exists c.
  - unfold PATCH_products_id, asyncHandler, patch_products_id, assert.
    destruct (PatchProduct patch.2); unfold bind, throw, ret, product_update;
      cbn zeta; [done|].
    destruct (product db !! patch.1) as [d|] eqn:Hd; [|done].
    intros it Hit. simpl in *. destruct (Hint it Hit) as [Ho Hp].
    split; [done|].
    destruct (decide (patch.1 = productId it)) as [<-|Hne].
    + rewrite lookup_insert_eq. by eexists.
    + by rewrite lookup_insert_ne.
Qed.

Lemma integrity_is_kept_shop :
  integrity
    (POST_orders CreateOrder_spec (Fixture.quiet "o2")
       (Fixture.request [Fixture.line "p1" 10 2]) Fixture.shop_with_order).2
  ∧ integrity
      (PATCH_products_id Fixture.accept_all
         ("p1", {| patch_price := Some 99%float; patch_stock := None |})
         Fixture.shop_with_order).2.
Proof.
  apply (integrity_is_kept CreateOrder_spec Fixture.accept_all).
  intros it Hit. repeat (apply elem_of_cons in Hit as [->|Hit]);
    [split; by eexists..|by apply elem_of_nil in Hit].
Defined.



(** ** Requests in flight *)

Lemma schedule_turn_0 CreateOrder turns t ts db :
  schedule CreateOrder (0%nat :: turns) (t :: ts) db
  = schedule CreateOrder turns ((step CreateOrder t db).1 :: ts)
      (step CreateOrder t db).2.
Proof. cbn [schedule]. simpl. by destruct (step CreateOrder t db). Qed.

Lemma schedule_turn_1 CreateOrder turns t0 t ts db :
  schedule CreateOrder (1%nat :: turns) (t0 :: t :: ts) db
  = schedule CreateOrder turns (t0 :: (step CreateOrder t db).1 :: ts)
      (step CreateOrder t db).2.
Proof. cbn [schedule]. simpl. by destruct (step CreateOrder t db). Qed.



Lemma step_twice CreateOrder env req db :
  let '(t, db1) := step CreateOrder (received env req) db in
  step CreateOrder t db1
  = (responded (POST_orders CreateOrder env req db).1,
     (POST_orders CreateOrder env req db).2).
Proof.
  unfold POST_orders, asyncHandler, post_orders, step, settle, bind.
  destruct (post_orders_lookup CreateOrder req db) as [[e|products] db1];
    cbv beta iota zeta delta [fst snd]; [done|].
  by destruct (post_orders_commit env req products db1) as [[e|res] db2].
Qed.

(** Two placements that each take their two turns in a row are the
    handler run on the first request and then, on the store it leaves, on
    the second. *)
Lemma serial_schedule_is_composition CreateOrder env1 req1 env2 req2 db :
  schedule CreateOrder [0; 0; 1; 1]%nat
    [received env1 req1; received env2 req2] db
  = (let '(res1, db1) := POST_orders CreateOrder env1 req1 db in
     let '(res2, db2) := POST_orders CreateOrder env2 req2 db1 in
     ([responded res1; responded res2], db2)).
Proof.
  rewrite schedule_turn_0.
  pose proof (step_twice CreateOrder env1 req1 db) as H1.
  destruct (step CreateOrder (received env1 req1) db) as [t1 db1]. cbn [fst snd].
  rewrite schedule_turn_0, H1. cbn [fst snd].
  destruct (POST_orders CreateOrder env1 req1 db) as [res1 db1']. cbn [fst snd].
  rewrite schedule_turn_1.
  pose proof (step_twice CreateOrder env2 req2 db1') as H2.
  destruct (step CreateOrder (received env2 req2) db1') as [t2 db2]. cbn [fst snd].
  rewrite schedule_turn_1, H2. cbn [fst snd schedule].
  by destruct (POST_orders CreateOrder env2 req2 db1').
Qed.



(** ** The helper, in and out of the handler *)

(** X10: [getQuantity] answers for exactly the products the request
    names, with the quantity of the first line that names the product, and
    throws for every other identifier.  In the handler it is only asked
    about products the lookup returned or the request names, so neither
    the admission check nor the building of the updates throws. *)
Theorem getQuantity_answers_named_only items pid db :
  (pid ∈ map productId items →
   ∃ it, first_line items it ∧ productId it = pid
         ∧ getQuantity items pid = inr (quantity it))
  ∧ (pid ∉ map productId items →
     getQuantity items pid = inl (Error "Cannot read properties of undefined"))
  ∧ (∃ b, isSufficientStock items (found (map productId items) db) = inr b)
  ∧ (∃ qs, queryPromises items (map productId items) = inr qs
           ∧ length qs = length items).
Proof.
  split; [|split; [|split]].
  - intros Hin. destruct (first_line_exists _ _ Hin) as (it & Hit & Heq).
    exists it. split; [done|]. split; [done|].
    rewrite (getQuantity_named _ _ Hin). f_equal. rewrite <- Heq.
    by apply first_line_quantity.
  - intros Hin. unfold getQuantity.
    induction items as [|x items IH]; [done|]. simpl in *.
    apply not_elem_of_cons in Hin as [Hne Hin].
    rewrite bool_decide_eq_false_2 by done. by apply IH.
  - eexists. apply isSufficientStock_found.
  - eexists. split; [apply queryPromises_named|]. by rewrite !length_map.
Qed.

(** ** Errors on their way out *)

(** X11: the response [asyncHandler] makes from what a handler throws is
    a 400 exactly for a [StructError] or a Prisma validation error, a 404
    exactly for the known request error P2025, and a 500 for everything
    else, the other known request errors included; what a handler returns
    goes out as it is, and in both cases the store is the one the handler
    left. *)
Theorem asyncHandler_statuses {Req} (handler : Req → M Response) req db :
  match handler req db with
  | (inr res, db') => asyncHandler handler req db = (res, db')
  | (inl e, db') =>
      ∃ res, asyncHandler handler req db = (res, db')
      ∧ (status res = 400 ↔
         (∃ m, e = StructError m) ∨ (∃ m, e = PrismaClientValidationError m))
      ∧ (status res = 404 ↔ ∃ m, e = PrismaClientKnownRequestError "P2025" m)
      ∧ (status res = 400 ∨ status res = 404 ∨ status res = 500)
  end.
Proof.
  unfold asyncHandler. destruct (handler req db) as [[e|res] db']; [|done].
  eexists. split; [done|].
  destruct e as [m|m|code m|m]; simpl.
  - split; [split; [intros _; left; by eexists|done]|].
    split; [|by left]. split; [done|]. by intros [? ?].
  - split; [split; [intros _; right; by eexists|done]|].
    split; [|by left]. split; [done|]. by intros [? ?].
  - case_bool_decide as Hc; simpl.
    + subst code. split.
      * split; [done|]. by intros [[? ?]|[? ?]].
      * split; [|right; by left]. split; [intros _; by eexists|done].
    + split.
      * split; [done|]. by intros [[? ?]|[? ?]].
      * split; [|right; by right]. split; [done|]. intros [? ?]. congruence.
  - split.
    + split; [done|]. by intros [[? ?]|[? ?]].
    + split; [|right; by right]. split; [done|]. by intros [? ?].
Qed.

(** ** Patching a product *)

Lemma PATCH_products_id_present PatchProduct i patch d db :
  PatchProduct patch = None →
  product db !! i = Some d →
  PATCH_products_id PatchProduct (i, patch) db
  = (send (product_json (Some {| id := i; fields := apply_patch patch d |})),
     set_product (<[i := apply_patch patch d]>) db).
Proof.
  intros Hvalid Hd.
  unfold PATCH_products_id, asyncHandler, patch_products_id, assert. simpl.
  rewrite Hvalid. unfold bind, ret, product_update. by rewrite Hd.
Qed.

Lemma GET_products_id_eq i db :
  GET_products_id i db
  = (send (product_json ((λ d, {| id := i; fields := d |}) <$> product db !! i)),
     db).
Proof. reflexivity. Qed.

(** X12: patch, then get.  For a body the struct accepts and a product
    that has a row, the response of the patch is the response of a get of
    the same product afterwards: the product with the columns the body
    carries set and the others as they were; the get of any other product
    answers as before. *)
Theorem patch_then_get PatchProduct i patch d db :
  PatchProduct patch = None →
  product db !! i = Some d →
  let '(res, db') := PATCH_products_id PatchProduct (i, patch) db in
  GET_products_id i db' = (res, db')
  ∧ res = send (product_json (Some
            {| id := i;
               fields := {| price := default (price d) (patch_price patch);
                            stock := default (stock d) (patch_stock patch) |} |}))
  ∧ ∀ j, j ≠ i → (GET_products_id j db').1 = (GET_products_id j db).1.
Proof.
  intros Hvalid Hd. rewrite (PATCH_products_id_present _ _ _ _ _ Hvalid Hd).
  split; [|split; [done|]].
  - rewrite GET_products_id_eq. simpl. by rewrite lookup_insert_eq.
  - intros j Hj. rewrite !GET_products_id_eq. simpl.
    by rewrite lookup_insert_ne.
Qed.

Lemma patch_then_get_shop :
  let '(res, db') :=
    PATCH_products_id Fixture.accept_all
      ("p1", {| patch_price := Some 99%float; patch_stock := None |}) Fixture.shop in
  GET_products_id "p1" db' = (res, db')
  ∧ res = send (product_json (Some {| id := "p1";
                                      fields := {| price := 99; stock := 5 |} |})).
Proof.
  pose proof (patch_then_get Fixture.accept_all "p1"
                {| patch_price := Some 99%float; patch_stock := None |}
                {| price := 10; stock := 5 |} Fixture.shop eq_refl eq_refl) as H.
  destruct (PATCH_products_id _ _ _) as [res db'].
  destruct H as (H1 & H2 & _). done.
Defined.

Lemma PATCH_products_id_invalid PatchProduct i patch db message :
  PatchProduct patch = Some message →
  PATCH_products_id PatchProduct (i, patch) db
  = ({| status := 400; body := message_json message |}, db).
Proof.
  unfold PATCH_products_id, asyncHandler, patch_products_id, assert. simpl.
  by intros ->.
Qed.

Lemma PATCH_products_id_absent PatchProduct i patch db :
  PatchProduct patch = None → product db !! i = None →
  PATCH_products_id PatchProduct (i, patch) db
  = ({| status := 404; body := status_text |}, db).
Proof.
  unfold PATCH_products_id, asyncHandler, patch_products_id, assert. simpl.
  intros -> Hnone. unfold bind, ret, product_update. by rewrite Hnone.
Qed.

(** X13: a patch the struct refuses is answered 400 with the struct's
    message, whether the product has a row or not; a patch the struct
    accepts for a product with no row is answered 404; the store is left
    as it was in both cases. *)
Theorem patch_refusals PatchProduct i patch db :
  (∀ message, PatchProduct patch = Some message →
     PATCH_products_id PatchProduct (i, patch) db
     = ({| status := 400; body := message_json message |}, db))
  ∧ (PatchProduct patch = None → product db !! i = None →
     PATCH_products_id PatchProduct (i, patch) db
     = ({| status := 404; body := status_text |}, db)).
Proof.
  split.
  - intros message Hm. by apply PATCH_products_id_invalid.
  - intros Hvalid Hnone. by apply PATCH_products_id_absent.
Qed.

Lemma apply_patch_twice patch d :
  apply_patch patch (apply_patch patch d) = apply_patch patch d.
Proof.
  unfold apply_patch. simpl.
  by destruct (patch_price patch), (patch_stock patch).
Qed.

(** X14: a patch sent twice leaves the store and answers as the patch
    sent once, whatever the identifier and the body. *)
Theorem patch_is_idempotent PatchProduct req db :
  PATCH_products_id PatchProduct req (PATCH_products_id PatchProduct req db).2
  = PATCH_products_id PatchProduct req db.
Proof.
  destruct req as [i patch].
  destruct (PatchProduct patch) as [message|] eqn:Hvalid.
  - rewrite (PATCH_products_id_invalid _ _ _ db _ Hvalid). cbn [snd].
    by apply PATCH_products_id_invalid.
  - destruct (product db !! i) as [d|] eqn:Hd.
    + rewrite (PATCH_products_id_present _ _ _ d db Hvalid Hd). cbn [snd].
      rewrite (PATCH_products_id_present _ _ _ (apply_patch patch d)); [|done|].
      * rewrite apply_patch_twice. unfold set_product. simpl.
        by rewrite insert_insert_eq.
      * simpl. by rewrite lookup_insert_eq.
    + rewrite (PATCH_products_id_absent _ _ _ db Hvalid Hd). cbn [snd].
      by apply PATCH_products_id_absent.
Qed.

(** X15: a patch that carries no column leaves the store as it was,
    whatever the identifier. *)
Theorem empty_patch_changes_nothing PatchProduct i patch db :
  patch_price patch = None → patch_stock patch = None →
  (PATCH_products_id PatchProduct (i, patch) db).2 = db.
Proof.
  intros Hp Hs.
  destruct (PatchProduct patch) as [message|] eqn:Hvalid.
  - by rewrite (PATCH_products_id_invalid _ _ _ db _ Hvalid).
  - destruct (product db !! i) as [d|] eqn:Hd.
    + rewrite (PATCH_products_id_present _ _ _ d db Hvalid Hd). cbn [snd].
      unfold apply_patch. rewrite Hp, Hs. simpl.
      destruct db as [u p o oi]. unfold set_product. simpl in *.
      f_equal. apply insert_id. by destruct d.
    + by rewrite (PATCH_products_id_absent _ _ _ db Hvalid Hd).
Qed.

Lemma empty_patch_changes_nothing_shop :
  (PATCH_products_id Fixture.accept_all
     ("p1", {| patch_price := None; patch_stock := None |}) Fixture.shop).2
  = Fixture.shop.
Proof.
  apply (empty_patch_changes_nothing Fixture.accept_all); reflexivity.
Defined.

(** ** Creating a product *)

(** X16: create, then get.  A body the struct accepts, stored under a
    new identifier, is answered 201 with the product, and a get of that
    identifier afterwards answers 200 with the same product; no other
    product row changes and no other table does.  A body the struct
    refuses is answered 400 and stores nothing. *)
Theorem create_product_then_get CreateProduct env data db :
  product db !! uuid env = None →
  (∀ message, CreateProduct data = Some message →
     POST_products CreateProduct env data db
     = ({| status := 400; body := message_json message |}, db))
  ∧ (CreateProduct data = None →
     let '(res, db') := POST_products CreateProduct env data db in
     res = {| status := 201;
              body := product_json (Some {| id := uuid env; fields := data |}) |}
     ∧ GET_products_id (uuid env) db'
       = ({| status := 200; body := body res |}, db')
     ∧ (∀ j, j ≠ uuid env → product db' !! j = product db !! j)
     ∧ user db' = user db ∧ order db' = order db
     ∧ orderItem db' = orderItem db).
Proof.
  intros Hfresh.
  unfold POST_products, asyncHandler, post_products, assert. split.
  - intros message ->. reflexivity.
  - intros ->. unfold bind, ret, product_create. rewrite Hfresh. simpl.
    split; [done|]. split.
    + rewrite GET_products_id_eq. simpl. by rewrite lookup_insert_eq.
    + split; [|done]. intros j Hj. by rewrite lookup_insert_ne.
Qed.

Lemma create_product_then_get_shop :
  let '(res, db') :=
    POST_products Fixture.accept_all (Fixture.quiet "p3")
      {| price := 7; stock := 4 |} Fixture.shop in
  GET_products_id "p3" db'
  = ({| status := 200;
        body := product_json (Some {| id := "p3";
                                      fields := {| price := 7; stock := 4 |} |}) |},
     db').
Proof.
  pose proof (create_product_then_get Fixture.accept_all (Fixture.quiet "p3")
                {| price := 7; stock := 4 |} Fixture.shop eq_refl) as [_ H].
  specialize (H eq_refl).
  destruct (POST_products _ _ _ _) as [res db'].
  destruct H as (-> & H & _). exact H.
Defined.
